(** * The worker-message reducer of the spreadsheet client

    A shallow embedding of [react-client/src/App.tsx]: the [reducer] that
    folds the worker's messages into [WorkerDataState], and the [onmessage]
    handler that [App] installs on the data worker.

    Modelling decisions.
    - A JavaScript [number] is an IEEE 754 binary64 value: the kernel's
      primitive [float].  That holds for the counter [selectedId] too:
      [App] initialises it with the literal 0 and adds 1 to it, which is
      the addition of binary64 and is exact on integers up to 2^53 only.
    - A JavaScript string is a sequence of code units: [string], with one
      [ascii] standing for one code unit.  [split] and [join] never look
      inside a code unit, only compare them.
    - [match(v).with(p, h)....run()] and [.otherwise(h)] come from the
      ts-pattern library; they are embedded as the combinators of
      [TsPattern], with a thrown exception as the [Throws] completion.
    - The hooks of [App] ([useState], [useReducer]) and the console are the
      fields of [AppState]; the handler runs in a state-and-exception monad
      over it. *)

From Stdlib Require Import String Ascii List Bool Arith ZArith Lia PrimFloat.
From Stdlib Require Floats Uint63.
From Equations Require Import Equations.
Import ListNotations.
Local Open Scope string_scope.
Local Open Scope list_scope.

(** ** JavaScript strings: [String.prototype.split], [Array.prototype.join] *)

Module JsString.

(** [strip_prefix R S]: when [R] occurs in [S] at index 0, what follows it. *)
Fixpoint strip_prefix (R S : string) : option string :=
  match R, S with
  | EmptyString, _ => Some S
  | String a R', String b S' =>
      if Ascii.eqb a b then strip_prefix R' S' else None
  | String _ _, EmptyString => None
  end.

(** [cut R S] is StringIndexOf(S, R, 0) with the two substrings the loop of
    [split] takes around the index found: the text before the first
    occurrence of [R] in [S], and the text after it. *)
Fixpoint cut (R S : string) : option (string * string) :=
  match strip_prefix R S with
  | Some rest => Some (EmptyString, rest)
  | None =>
      match S with
      | EmptyString => None
      | String b S' =>
          match cut R S' with
          | Some (T, rest) => Some (String b T, rest)
          | None => None
          end
      end
  end.

Lemma strip_prefix_length (R S rest : string) :
  strip_prefix R S = Some rest ->
  String.length S = String.length R + String.length rest.
Proof.
  revert S; induction R as [|a R IH]; intros [|b S] H; simpl in *;
    try discriminate.
  - now inversion H.
  - now inversion H.
  - destruct (Ascii.eqb a b); [|discriminate].
    now rewrite (IH _ H).
Qed.

Lemma cut_length (R S T rest : string) :
  cut R S = Some (T, rest) ->
  String.length S = String.length T + String.length R + String.length rest.
Proof.
  revert T; induction S as [|b S IH]; intros T H; simpl in H.
  - destruct (strip_prefix R "") eqn:E; [|discriminate].
    inversion H; subst. apply strip_prefix_length in E. simpl in *. lia.
  - destruct (strip_prefix R (String b S)) eqn:E.
    + inversion H; subst. apply strip_prefix_length in E. simpl in *. lia.
    + destruct (cut R S) as [[T' rest']|] eqn:E'; [|discriminate].
      inversion H; subst. specialize (IH _ eq_refl). simpl. lia.
Qed.

Definition inspect {A : Type} (a : A) : {b : A | a = b} := exist _ a eq_refl.

(** The loop of [split] for a separator [String c r] that is not empty:
    while the separator is found, the text before it is appended to the
    result and the search goes on after it; the rest of the string is the
    last element.  The text after an occurrence is shorter than the string
    searched, which is why the loop ends. *)
Equations? split_loop (c : ascii) (r : string) (str : string) : list string
  by wf (String.length str) lt :=
  split_loop c r str with inspect (cut (String c r) str) := {
    | exist _ None _ => [str];
    | exist _ (Some (T, rest)) Heq => T :: split_loop c r rest }.
Proof.
  apply cut_length in Heq. simpl in Heq. lia.
Qed.

(** [split S R] is [S.split(R)] for a string separator [R] and no limit
    (the default limit, 2^32 - 1 elements, is above the length of any
    string an engine can hold).  An empty separator splits [S] into its
    code units; an empty [S] with a separator that is not empty gives the
    one-element array of [S]. *)
Definition split (S R : string) : list string :=
  match R with
  | EmptyString =>
      map (fun ch => String ch EmptyString) (list_ascii_of_string S)
  | String c r => split_loop c r S
  end.

(** [join R l] is [l.join(R)] for an array of strings. *)
Fixpoint join (R : string) (l : list string) : string :=
  match l with
  | [] => EmptyString
  | [x] => x
  | x :: rest => x ++ R ++ join R rest
  end.

End JsString.

(** ** Completions: a value returned, or an exception thrown *)

Inductive Completion (E A : Type) : Type :=
| Normal (a : A)
| Throws (e : E).
Arguments Normal {E A} a.
Arguments Throws {E A} e.

(** ** ts-pattern: [match(value).with(pattern, handler) ... .run()] *)

Module TsPattern.

(** A match expression under construction: the value matched, and the
    result of the first clause whose pattern matched it, if any has. *)
Record Matching (I O : Type) : Type :=
  { input : I;
    matched : option O }.
Arguments input {I O} m.
Arguments matched {I O} m.

(** The exception of [.run()]: "Pattern matching error: no pattern matches
    value ...". *)
Inductive MatchError (I : Type) : Type :=
| NoPatternMatches (value : I).
Arguments NoPatternMatches {I} value.

(** [match(value)]. *)
Definition match_ {I O : Type} (value : I) : Matching I O :=
  {| input := value; matched := None |}.

(** [.with(pattern, handler)]: a pattern is a partial selection from the
    input.  Once a clause has matched, the clauses after it are skipped. *)
Definition with_ {I S O : Type} (pattern : I -> option S) (handler : S -> O)
    (m : Matching I O) : Matching I O :=
  match matched m with
  | Some _ => m
  | None =>
      {| input := input m;
         matched := option_map handler (pattern (input m)) |}
  end.

(** [.run()]: the result of the clause that matched; throws when none did. *)
Definition run {I O : Type} (m : Matching I O)
    : Completion (MatchError I) O :=
  match matched m with
  | Some r => Normal r
  | None => Throws (NoPatternMatches (input m))
  end.

(** [.otherwise(handler)]: the result of the clause that matched, and of
    [handler] when none did. *)
Definition otherwise {I O : Type} (handler : unit -> O) (m : Matching I O)
    : O :=
  match matched m with
  | Some r => r
  | None => handler tt
  end.

End TsPattern.
Import TsPattern.

(** Method chaining, read from left to right as in the source. *)
Notation "m |> f" := (f m) (at level 45, left associativity, only parsing).

(** ** Data model *)

(** [number]. *)
Definition number : Type := float.

(** [interface WorkerDataState]. *)
Record WorkerDataState : Type :=
  { progress : number;
    chunk : list (list string);
    header : list string;
    names : list string;
    result : string }.

(** Modelled from the spec: [Metadata] is declared in
    [components.interface], which is not among the sources; the spec gives
    its fields as [headerChecked: bool], [headerCheckBoxDisabled: bool] and
    [selectedId: integer], and [App] initialises exactly these three, the
    last with the number literal 0: a [number] at run time. *)
Record Metadata : Type :=
  { headerChecked : bool;
    headerCheckBoxDisabled : bool;
    selectedId : number }.

(** Modelled from the spec: [DataStatus] is declared in
    [components.interface]; an enumeration of strings of which only
    ["Empty"] is known. *)
Definition DataStatus : Type := string.

(** A value that passed through [postMessage], for the payloads nothing in
    this file looks into. *)
#[warnings="-register-all"]
Inductive JsValue : Type :=
| JsUndefined
| JsNull
| JsBoolean (b : bool)
| JsNumber (n : number)
| JsString (s : string)
| JsArray (items : list JsValue)
| JsObject (fields : list (string * JsValue)).

(** The payload of a [parsing] message, [{ progress }]. *)
Module ParsingPayload.
Record t : Type := { progress : number }.
End ParsingPayload.

(** The payload of an [addFilter] message, [{ names }]. *)
Module AddFilterPayload.
Record t : Type := { names : list string }.
End AddFilterPayload.

(** The tags [App.tsx] matches on: five in [reducer], a sixth in
    [onmessage]. *)
Definition reducer_types : list string :=
  ["parsing"; "chunk"; "header"; "sumCol"; "names"].

Definition handler_types : list string :=
  reducer_types ++ ["addFilter"].

Definition is_reducer_type (t : string) : bool :=
  existsb (String.eqb t) reducer_types.

Definition is_handler_type (t : string) : bool :=
  existsb (String.eqb t) handler_types.

(** A tag that is none of the six. *)
Record OtherType : Type :=
  { type_name : string;
    type_other : is_handler_type type_name = false }.

(** Modelled from the spec: [WorkerRecMessage] is declared in
    [worker.interface], which is not among the sources.  It is a union of
    [{ type, payload }] objects discriminated by [type]; the six variants
    [App.tsx] matches on carry the payloads its handlers use, and [Other]
    stands for a message with any further tag. *)
Inductive WorkerRecMessage : Type :=
| Parsing (payload : ParsingPayload.t)
| Chunk (payload : list string)
| Header (payload : list string)
| SumCol (payload : string)
| Names (payload : list string)
| AddFilter (payload : AddFilterPayload.t)
| Other (type : OtherType) (payload : JsValue).

(** The [type] property of a message. *)
Definition type (data : WorkerRecMessage) : string :=
  match data with
  | Parsing _ => "parsing"
  | Chunk _ => "chunk"
  | Header _ => "header"
  | SumCol _ => "sumCol"
  | Names _ => "names"
  | AddFilter _ => "addFilter"
  | Other t _ => type_name t
  end.

(** The patterns [{ type: "...", payload: P.select() }]: the message has
    the tag, and its payload is what the handler receives. *)
Definition parsing_payload (data : WorkerRecMessage)
    : option ParsingPayload.t :=
  match data with Parsing payload => Some payload | _ => None end.

Definition chunk_payload (data : WorkerRecMessage) : option (list string) :=
  match data with Chunk payload => Some payload | _ => None end.

Definition header_payload (data : WorkerRecMessage) : option (list string) :=
  match data with Header payload => Some payload | _ => None end.

Definition sumCol_payload (data : WorkerRecMessage) : option string :=
  match data with SumCol payload => Some payload | _ => None end.

Definition names_payload (data : WorkerRecMessage) : option (list string) :=
  match data with Names payload => Some payload | _ => None end.

Definition addFilter_payload (data : WorkerRecMessage)
    : option AddFilterPayload.t :=
  match data with AddFilter payload => Some payload | _ => None end.

(** ** The reducer *)

(** The exception a [.run()] over a message throws. *)
Definition Error : Type := MatchError WorkerRecMessage.

(** [const reducer = (state, action) => match(action) ... .run()], with the
    string literal of its [chunk] clause as the parameter
    [DELIMITER_TOKEN]. *)
Definition reducer_on (DELIMITER_TOKEN : string) (state : WorkerDataState)
    (action : WorkerRecMessage) : Completion Error WorkerDataState :=
  match_ action
  |> with_ parsing_payload (fun payload =>
       let progress := ParsingPayload.progress payload in
       {| progress := progress;
          chunk := chunk state;
          header := header state;
          names := names state;
          result := result state |})
  |> with_ chunk_payload (fun payload =>
       let chunk :=
         map (fun column => JsString.split column DELIMITER_TOKEN) payload in
       {| progress := progress state;
          chunk := chunk;
          header := header state;
          names := names state;
          result := result state |})
  |> with_ header_payload (fun header =>
       {| progress := progress state;
          chunk := chunk state;
          header := header;
          names := names state;
          result := result state |})
  |> with_ sumCol_payload (fun result =>
       {| progress := progress state;
          chunk := chunk state;
          header := header state;
          names := names state;
          result := result |})
  |> with_ names_payload (fun names =>
       {| progress := progress state;
          chunk := chunk state;
          header := header state;
          names := names;
          result := result state |})
  |> run.

(** The reducer of the source: the literal is ["DELIMITER_TOKEN"]. *)
Definition reducer : WorkerDataState -> WorkerRecMessage ->
    Completion Error WorkerDataState :=
  reducer_on "DELIMITER_TOKEN".

(** The reducer applied to the actions dispatched, in the order of
    dispatch; an exception ends the run. *)
Fixpoint reduce (state : WorkerDataState) (actions : list WorkerRecMessage)
    : Completion Error WorkerDataState :=
  match actions with
  | [] => Normal state
  | action :: rest =>
      match reducer state action with
      | Normal state' => reduce state' rest
      | Throws e => Throws e
      end
  end.

(** [progress] lies in the closed interval from 0 to 100 (which no NaN
    does). *)
Definition percentage (p : number) : bool :=
  PrimFloat.leb 0%float p && PrimFloat.leb p 100%float.

(** ** The component [App] *)

(** The state [App] keeps between renders, [useState] and [useReducer],
    and the lines written by [console.log]. *)
Record AppState : Type :=
  { dataStatus : DataStatus;
    metadata : Metadata;
    state : WorkerDataState;
    console : list string }.

(** The arguments of the hooks at the first render. *)
Definition initialState : WorkerDataState :=
  {| progress := 0%float;
     chunk := [];
     header := [];
     names := [];
     result := "" |}.

Definition initialMetadata : Metadata :=
  {| headerChecked := true;
     headerCheckBoxDisabled := false;
     selectedId := 0%float |}.

Definition initialApp : AppState :=
  {| dataStatus := "Empty";
     metadata := initialMetadata;
     state := initialState;
     console := [] |}.

(** What a handler does: it reads and updates the state of [App], and
    returns or throws. *)
Definition Effect (A : Type) : Type :=
  AppState -> Completion Error (A * AppState).

Definition ret {A : Type} (a : A) : Effect A :=
  fun app => Normal (a, app).

Definition bind {A B : Type} (e : Effect A) (k : A -> Effect B) : Effect B :=
  fun app =>
    match e app with
    | Normal (a, app') => k a app'
    | Throws err => Throws err
    end.

Notation "e1 ;; e2" := (bind e1 (fun _ => e2))
  (at level 61, right associativity).

(** [setMetadata(input)]: the metadata of the next render. *)
Definition setMetadata (input : Metadata) : Effect unit :=
  fun app =>
    Normal (tt, {| dataStatus := dataStatus app;
                   metadata := input;
                   state := state app;
                   console := console app |}).

(** [dispatch(action)]: the reducer state of the next render is the
    reducer's result; an exception of the reducer surfaces. *)
Definition dispatch (action : WorkerRecMessage) : Effect unit :=
  fun app =>
    match reducer (state app) action with
    | Normal state' =>
        Normal (tt, {| dataStatus := dataStatus app;
                       metadata := metadata app;
                       state := state';
                       console := console app |})
    | Throws err => Throws err
    end.

(** [console.log(line)]. *)
Definition console_log (line : string) : Effect unit :=
  fun app =>
    Normal (tt, {| dataStatus := dataStatus app;
                   metadata := metadata app;
                   state := state app;
                   console := console app ++ [line] |}).

(** [dataWorker.onmessage = ({ data }) => match(data) ... .otherwise(...)],
    as installed by a render whose [metadata] is the one given: the
    [addFilter] clause reads the metadata of that render. *)
Definition onmessage (metadata : Metadata) (data : WorkerRecMessage)
    : Effect unit :=
  match_ data
  |> with_ chunk_payload (fun payload => dispatch (Chunk payload))
  |> with_ header_payload (fun payload => dispatch (Header payload))
  |> with_ parsing_payload (fun payload => dispatch (Parsing payload))
  |> with_ sumCol_payload (fun payload => dispatch (SumCol payload))
  |> with_ names_payload (fun payload => dispatch (Names payload))
  |> with_ addFilter_payload (fun payload =>
       let names := AddFilterPayload.names payload in
       setMetadata {| headerChecked := headerChecked metadata;
                      headerCheckBoxDisabled := headerCheckBoxDisabled metadata;
                      selectedId := (selectedId metadata + 1)%float |} ;;
       dispatch (Names names))
  |> otherwise (fun _ => console_log "Unexpected action").

(** A message arriving at an [App] whose last render installed the
    handler: the state of [App] afterwards. *)
Definition receive (app : AppState) (data : WorkerRecMessage)
    : Completion Error AppState :=
  match onmessage (metadata app) data app with
  | Normal (_, app') => Normal app'
  | Throws err => Throws err
  end.

(** A message with the tag ["reset"], which is none of the six. *)
Definition reset_message : WorkerRecMessage :=
  Other {| type_name := "reset"; type_other := eq_refl |} JsNull.

(** ** Notions the properties are stated with *)

(** The [number] that is the integer [n], for [n] from 0 to 2^63 - 1: the
    integer rounded to binary64. *)
Definition number_of_Z (n : Z) : number :=
  PrimFloat.of_uint63 (Uint63.of_Z n).


(** [occurs R S]: the separator [R] occurs in [S], that is,
    StringIndexOf(S, R, 0) finds an index. *)
Definition occurs (R S : string) : bool :=
  match JsString.cut R S with
  | Some _ => true
  | None => false
  end.

(** [code_unit_in c s]: the code unit [c] is one of those of [s]. *)
Fixpoint code_unit_in (c : ascii) (s : string) : bool :=
  match s with
  | EmptyString => false
  | String b s' => Ascii.eqb c b || code_unit_in c s'
  end.

(** A row as [split] returns them for the separator [R]: it has a cell,
    and [R] occurs in none of its cells. *)
Definition row_of_cells (R : string) (row : list string) : Prop :=
  row <> [] /\ Forall (fun cell => occurs R cell = false) row.

(** The value a field holds after the [actions]: that of the last action
    [select] picks a value from, and the value [before] when it picks
    from none. *)
Fixpoint latest {A : Type} (select : WorkerRecMessage -> option A)
    (actions : list WorkerRecMessage) (before : A) : A :=
  match actions with
  | [] => before
  | action :: rest =>
      latest select rest
        (match select action with
         | Some value => value
         | None => before
         end)
  end.

(** The actions the clauses of [onmessage] pass to [dispatch] for a
    message. *)
Definition dispatched (data : WorkerRecMessage) : list WorkerRecMessage :=
  match data with
  | AddFilter payload => [Names (AddFilterPayload.names payload)]
  | Other _ _ => []
  | _ => [data]
  end.

Definition is_addFilter (data : WorkerRecMessage) : bool :=
  match data with AddFilter _ => true | _ => false end.

Definition is_other (data : WorkerRecMessage) : bool :=
  match data with Other _ _ => true | _ => false end.

(** The messages of the worker arriving one after the other, each at the
    handler of a render that has seen the one before. *)
Fixpoint receive_all (app : AppState) (messages : list WorkerRecMessage)
    : Completion Error AppState :=
  match messages with
  | [] => Normal app
  | data :: rest =>
      match receive app data with
      | Normal app' => receive_all app' rest
      | Throws err => Throws err
      end
  end.

(** * Properties *)

(** ** [split] and [join] *)

Section SplitJoin.
Import JsString.
Local Open Scope string_scope.

Lemma append_empty_r (s : string) : s ++ "" = s.
Proof. induction s as [|a s IH]; simpl; [reflexivity | now rewrite IH]. Qed.

Lemma strip_prefix_append (R S rest : string) :
  strip_prefix R S = Some rest -> S = R ++ rest.
Proof.
  revert S; induction R as [|a R IH]; intros S H; simpl in H.
  - now inversion H.
  - destruct S as [|b S]; [discriminate|].
    destruct (Ascii.eqb_spec a b) as [->|_]; [|discriminate].
    simpl. f_equal. now apply IH.
Qed.

(** The index [cut] finds is an occurrence of the separator. *)
Lemma cut_append (R S T rest : string) :
  cut R S = Some (T, rest) -> S = T ++ R ++ rest.
Proof.
  revert T; induction S as [|b S IH]; intros T H; simpl in H.
  - destruct (strip_prefix R "") eqn:E; [|discriminate].
    inversion H; subst. exact (strip_prefix_append _ _ _ E).
  - destruct (strip_prefix R (String b S)) eqn:E.
    + inversion H; subst. exact (strip_prefix_append _ _ _ E).
    + destruct (cut R S) as [[T' rest']|] eqn:E'; [|discriminate].
      inversion H; subst. simpl. f_equal. now apply IH.
Qed.

(** The two cases of the loop, as equations of [split]. *)
Lemma split_not_found (c : ascii) (r S : string) :
  cut (String c r) S = None -> split S (String c r) = [S].
Proof.
  intros H. unfold split. rewrite split_loop_equation_1.
  destruct (inspect (cut (String c r) S)) as [[[T rest]|] e].
  - congruence.
  - reflexivity.
Qed.

Lemma split_found (c : ascii) (r S T rest : string) :
  cut (String c r) S = Some (T, rest) ->
  split S (String c r) = T :: split rest (String c r).
Proof.
  intros H. unfold split. rewrite split_loop_equation_1.
  destruct (inspect (cut (String c r) S)) as [[[T' rest']|] e].
  - assert (T' = T /\ rest' = rest) as [-> ->] by (split; congruence).
    reflexivity.
  - congruence.
Qed.

Lemma split_loop_not_nil (c : ascii) (r S : string) : split_loop c r S <> [].
Proof.
  change (split S (String c r) <> []).
  destruct (cut (String c r) S) as [[T rest]|] eqn:E.
  - rewrite (split_found _ _ _ _ _ E). discriminate.
  - rewrite (split_not_found _ _ _ E). discriminate.
Qed.

Lemma join_cons (R x : string) (l : list string) :
  l <> [] -> join R (x :: l) = x ++ R ++ join R l.
Proof. destruct l; [congruence | reflexivity]. Qed.

Lemma join_split_loop (c : ascii) (r S : string) :
  join (String c r) (split_loop c r S) = S.
Proof.
  remember (String.length S) as n eqn:Hn.
  revert S Hn. induction n as [n IH] using lt_wf_ind. intros S Hn.
  change (join (String c r) (split S (String c r)) = S).
  destruct (cut (String c r) S) as [[T rest]|] eqn:E.
  - rewrite (split_found _ _ _ _ _ E).
    rewrite join_cons by apply split_loop_not_nil.
    unfold split. rewrite (IH (String.length rest)); [| |reflexivity].
    + symmetry. now apply cut_append.
    + apply cut_length in E. simpl in E. lia.
  - now rewrite (split_not_found _ _ _ E).
Qed.

Lemma join_code_units (S : string) :
  join "" (map (fun ch => String ch "") (list_ascii_of_string S)) = S.
Proof.
  induction S as [|a S IH]; [reflexivity|].
  cbn [list_ascii_of_string map].
  destruct (list_ascii_of_string S) as [|b l] eqn:E.
  - destruct S; [reflexivity | discriminate].
  - rewrite join_cons by discriminate. simpl in *. now rewrite IH.
Qed.

(** Joining what [split] returns, on the separator it was split on, gives
    the string back. *)
Lemma join_split (S R : string) : join R (split S R) = S.
Proof.
  destruct R as [|c r]; [apply join_code_units | apply join_split_loop].
Qed.

Lemma length_map_split (R : string) (payload : list string) :
  length (map (fun column => split column R) payload) = length payload.
Proof. apply length_map. Qed.

Lemma map_join_split (R : string) (payload : list string) :
  map (join R) (map (fun column => split column R) payload) = payload.
Proof.
  induction payload as [|p payload IH]; simpl; [reflexivity|].
  now rewrite join_split, IH.
Qed.

End SplitJoin.

(** [split] on the cases of the ECMAScript algorithm. *)
Example split_examples :
  JsString.split "a#b" "#" = ["a"; "b"] /\
  JsString.split "a##b#" "#" = ["a"; ""; "b"; ""] /\
  JsString.split "" "#" = [""] /\
  JsString.split "aaa" "aa" = [""; "a"] /\
  JsString.split "ab" "" = ["a"; "b"] /\
  JsString.split "a#b" "DELIMITER_TOKEN" = ["a#b"].
Proof. repeat split; reflexivity. Qed.

(** ** ts-pattern: the first clause that matches decides *)

Section FirstMatch.
Context {I S O : Type}.
Implicit Types (m : Matching I O) (pattern : I -> option S)
  (handler : S -> O).

Lemma with_input pattern handler m :
  input (with_ pattern handler m) = input m.
Proof. unfold with_. now destruct (matched m). Qed.

Lemma with_decided pattern handler m r :
  matched m = Some r -> matched (with_ pattern handler m) = Some r.
Proof. intros H. unfold with_. now rewrite H. Qed.

Lemma with_hit pattern handler m x :
  matched m = None -> pattern (input m) = Some x ->
  matched (with_ pattern handler m) = Some (handler x).
Proof. intros H Hp. unfold with_. rewrite H. simpl. now rewrite Hp. Qed.

Lemma with_miss pattern handler m :
  matched m = None -> pattern (input m) = None ->
  matched (with_ pattern handler m) = None.
Proof. intros H Hp. unfold with_. rewrite H. simpl. now rewrite Hp. Qed.

End FirstMatch.

(** ** The patterns *)

Lemma other_type_not_matched (t : OtherType) (tag : string) :
  In tag handler_types -> String.eqb (type_name t) tag = false.
Proof.
  destruct t as [name Hname]. simpl. intros Hin.
  unfold is_handler_type in Hname.
  destruct (String.eqb name tag) eqn:E; [|reflexivity].
  rewrite <- Hname. symmetry. apply existsb_exists.
  exists tag. split; assumption.
Qed.

(** Each pattern selects the payload of exactly the messages whose [type]
    is its literal. *)
Lemma patterns_test_type (data : WorkerRecMessage) :
  (parsing_payload data <> None <-> type data = "parsing") /\
  (chunk_payload data <> None <-> type data = "chunk") /\
  (header_payload data <> None <-> type data = "header") /\
  (sumCol_payload data <> None <-> type data = "sumCol") /\
  (names_payload data <> None <-> type data = "names") /\
  (addFilter_payload data <> None <-> type data = "addFilter").
Proof.
  destruct data as [p|p|p|p|p|p|t v]; simpl;
    repeat split; intros H; try congruence; try discriminate.
  all: exfalso; apply String.eqb_eq in H; revert H;
    rewrite other_type_not_matched; [discriminate|];
    unfold handler_types, reducer_types; simpl; tauto.
Qed.

(** ** The reducer *)

Lemma reducer_on_DELIMITER_TOKEN :
  reducer_on "DELIMITER_TOKEN" = reducer.
Proof. reflexivity. Qed.

(** The chain of clauses as one case analysis on the message: the five
    clauses are on five different tags, so at most one matches, and
    [.run()] throws on the messages left over. *)
Lemma reducer_on_cases (token : string) (state : WorkerDataState)
    (action : WorkerRecMessage) :
  reducer_on token state action =
    match action with
    | Parsing payload =>
        Normal {| progress := ParsingPayload.progress payload;
                  chunk := chunk state;
                  header := header state;
                  names := names state;
                  result := result state |}
    | Chunk payload =>
        Normal {| progress := progress state;
                  chunk := map (fun column => JsString.split column token)
                               payload;
                  header := header state;
                  names := names state;
                  result := result state |}
    | Header payload =>
        Normal {| progress := progress state;
                  chunk := chunk state;
                  header := payload;
                  names := names state;
                  result := result state |}
    | SumCol payload =>
        Normal {| progress := progress state;
                  chunk := chunk state;
                  header := header state;
                  names := names state;
                  result := payload |}
    | Names payload =>
        Normal {| progress := progress state;
                  chunk := chunk state;
                  header := header state;
                  names := payload;
                  result := result state |}
    | AddFilter _ | Other _ _ => Throws (NoPatternMatches action)
    end.
Proof. destruct action; reflexivity. Qed.

(** Only the [chunk] clause reads the token. *)
Lemma reducer_on_not_chunk (token : string) (state : WorkerDataState)
    (action : WorkerRecMessage) :
  chunk_payload action = None ->
  reducer_on token state action = reducer state action.
Proof. destruct action; intros H; try reflexivity; discriminate. Qed.

(** The reducer returns exactly on the messages of its five tags. *)
Lemma reducer_returns (state : WorkerDataState) (action : WorkerRecMessage) :
  is_reducer_type (type action) = true ->
  exists state', reducer state action = Normal state'.
Proof.
  destruct action as [p|p|p|p|p|p|t v]; intros H;
    try (eexists; reflexivity).
  - discriminate.
  - exfalso. destruct t as [t Ht]. simpl in H.
    unfold is_handler_type, handler_types in Ht.
    rewrite existsb_app in Ht. apply orb_false_elim in Ht as [Ht _].
    unfold is_reducer_type in H. congruence.
Qed.

(** Which field a message of the reducer writes; every clause copies the
    other four from [state]. *)
Lemma reducer_progress (state state' : WorkerDataState)
    (action : WorkerRecMessage) :
  reducer state action = Normal state' ->
  progress state' =
    match action with
    | Parsing payload => ParsingPayload.progress payload
    | _ => progress state
    end.
Proof.
  destruct action; intros H; inversion H; reflexivity.
Qed.

Lemma reduce_app (state : WorkerDataState)
    (actions actions' : list WorkerRecMessage) :
  reduce state (actions ++ actions') =
    match reduce state actions with
    | Normal state' => reduce state' actions'
    | Throws e => Throws e
    end.
Proof.
  revert state; induction actions as [|a actions IH]; intros state; simpl.
  - reflexivity.
  - destruct (reducer state a); [apply IH | reflexivity].
Qed.

(** A run over messages of the reducer's tags returns, and [progress]
    stays a percentage when it was one and every [parsing] message
    carries one. *)
Lemma reduce_percentage (actions : list WorkerRecMessage) :
  forall state : WorkerDataState,
  percentage (progress state) = true ->
  Forall (fun action => is_reducer_type (type action) = true) actions ->
  (forall payload, In (Parsing payload) actions ->
     percentage (ParsingPayload.progress payload) = true) ->
  exists state', reduce state actions = Normal state' /\
                 percentage (progress state') = true.
Proof.
  induction actions as [|a actions IH]; intros state Hs Hty Hp.
  - exists state. split; [reflexivity | assumption].
  - inversion Hty as [|? ? Ha Hrest]; subst.
    destruct (reducer_returns state a Ha) as [state1 E1].
    simpl. rewrite E1. apply IH.
    + rewrite (reducer_progress _ _ _ E1).
      destruct a; try assumption.
      apply Hp. now left.
    + assumption.
    + intros payload Hin. apply Hp. now right.
Qed.

Lemma header_twice
    (state : WorkerDataState) (payload : list string) :
  exists state',
    reducer state (Header payload) = Normal state' /\
    reducer state' (Header payload) = Normal state'.
Proof.
  eexists. split; unfold reducer; rewrite reducer_on_cases; reflexivity.
Qed.

(** ** The clauses of the reducer *)

(** C1.  A [chunk] message overwrites [chunk] with its payload, each string
    split on the delimiter token, and leaves the other four fields as they
    were.  With ["#"] for the token, the payload ["a#b"], ["c#d"] gives the
    rows ["a"], ["b"] and ["c"], ["d"]; so does, with the token of the
    source, the same payload written with that token. *)
Theorem chunk_overwrites_chunk :
  (forall (token : string) (state : WorkerDataState) (payload : list string),
     reducer_on token state (Chunk payload) =
       Normal {| progress := progress state;
                 chunk := map (fun column => JsString.split column token)
                              payload;
                 header := header state;
                 names := names state;
                 result := result state |}) /\
  (forall (state : WorkerDataState) (payload : list string),
     reducer state (Chunk payload) =
       Normal {| progress := progress state;
                 chunk := map (fun column =>
                                 JsString.split column "DELIMITER_TOKEN")
                              payload;
                 header := header state;
                 names := names state;
                 result := result state |}) /\
  (forall state : WorkerDataState,
     reducer_on "#" state (Chunk ["a#b"; "c#d"]) =
       Normal {| progress := progress state;
                 chunk := [["a"; "b"]; ["c"; "d"]];
                 header := header state;
                 names := names state;
                 result := result state |}) /\
  (forall state : WorkerDataState,
     reducer state (Chunk ["aDELIMITER_TOKENb"; "cDELIMITER_TOKENd"]) =
       Normal {| progress := progress state;
                 chunk := [["a"; "b"]; ["c"; "d"]];
                 header := header state;
                 names := names state;
                 result := result state |}).
Proof.
  assert (G : forall token state payload,
             reducer_on token state (Chunk payload) =
             Normal {| progress := progress state;
                       chunk := map (fun column =>
                                       JsString.split column token) payload;
                       header := header state;
                       names := names state;
                       result := result state |})
    by (intros; apply reducer_on_cases).
  split; [exact G|].
  split; [intros; apply G|].
  split; intros state.
  - rewrite G. reflexivity.
  - unfold reducer. rewrite G. reflexivity.
Qed.

(** C2.  A [parsing] message with progress [p] gives the state whose
    [progress] is [p] and whose [chunk], [header], [names] and [result] are
    those of the state before. *)
Theorem parsing_overwrites_progress
    (state : WorkerDataState) (p : number) :
  reducer state (Parsing {| ParsingPayload.progress := p |}) =
    Normal {| progress := p;
              chunk := chunk state;
              header := header state;
              names := names state;
              result := result state |}.
Proof. unfold reducer. now rewrite reducer_on_cases. Qed.

(** C3.  A [header] message overwrites [header] with its payload, a
    [sumCol] message overwrites [result] with its payload, a [names]
    message overwrites [names] with its payload; the payload is stored as
    it is, and the other four fields are those of the state before. *)
Theorem header_sumCol_names_overwrite_one_field (state : WorkerDataState) :
  (forall payload : list string,
     reducer state (Header payload) =
       Normal {| progress := progress state;
                 chunk := chunk state;
                 header := payload;
                 names := names state;
                 result := result state |}) /\
  (forall payload : string,
     reducer state (SumCol payload) =
       Normal {| progress := progress state;
                 chunk := chunk state;
                 header := header state;
                 names := names state;
                 result := payload |}) /\
  (forall payload : list string,
     reducer state (Names payload) =
       Normal {| progress := progress state;
                 chunk := chunk state;
                 header := header state;
                 names := payload;
                 result := result state |}).
Proof.
  unfold reducer.
  repeat split; intros payload; now rewrite reducer_on_cases.
Qed.

(** C4.  On a message whose tag is none of [parsing], [chunk], [header],
    [sumCol], [names], the reducer returns no state: [.run()] throws the
    pattern-matching error, which carries the message. *)
Theorem reducer_throws_on_other_types
    (state : WorkerDataState) (action : WorkerRecMessage) :
  is_reducer_type (type action) = false ->
  reducer state action = Throws (NoPatternMatches action).
Proof.
  intros H. unfold reducer. rewrite reducer_on_cases.
  destruct action; try reflexivity; discriminate H.
Qed.

(** C4 at an [addFilter] message and the initial state. *)
Lemma reducer_throws_on_addFilter :
  is_reducer_type (type (AddFilter {| AddFilterPayload.names := ["a"] |}))
    = false /\
  reducer initialState (AddFilter {| AddFilterPayload.names := ["a"] |}) =
    Throws (NoPatternMatches
              (AddFilter {| AddFilterPayload.names := ["a"] |})).
Proof.
  split; [reflexivity|].
  apply (reducer_throws_on_other_types initialState
           (AddFilter {| AddFilterPayload.names := ["a"] |})).
  reflexivity.
Defined.

(** The same through [dispatch], the entry point [App] hands to its
    descendants as [setWorkerDataState]. *)
Lemma dispatch_throws_on_addFilter
    (payload : AddFilterPayload.t) (app : AppState) :
  dispatch (AddFilter payload) app =
    Throws (NoPatternMatches (AddFilter payload)).
Proof. reflexivity. Qed.

(** C8.  Applying the reducer to the same [header] message a second time
    returns the state the first application returned. *)
Theorem header_idempotent (state : WorkerDataState) (payload : list string) :
  exists state',
    reducer state (Header payload) = Normal state' /\
    reducer state' (Header payload) = Normal state' /\
    reduce state [Header payload; Header payload] =
      reduce state [Header payload].
Proof.
  destruct (header_twice state payload) as [state' [E1 E2]].
  exists state'. split; [exact E1|]. split; [exact E2|].
  cbn [reduce]. now rewrite E1, E2.
Qed.

(** C9.  After a [chunk] message, [chunk] has one row for each string of
    the payload, in the order of the payload, and joining a row on
    ["DELIMITER_TOKEN"] gives the string it was split from. *)
Theorem chunk_rows_join_to_payload
    (state : WorkerDataState) (payload : list string) :
  exists state',
    reducer state (Chunk payload) = Normal state' /\
    length (chunk state') = length payload /\
    map (JsString.join "DELIMITER_TOKEN") (chunk state') = payload /\
    (forall (i : nat) (column : string),
       nth_error payload i = Some column ->
       exists row,
         nth_error (chunk state') i = Some row /\
         row = JsString.split column "DELIMITER_TOKEN" /\
         JsString.join "DELIMITER_TOKEN" row = column).
Proof.
  eexists. split; [unfold reducer; rewrite reducer_on_cases; reflexivity|].
  cbn [chunk].
  split; [apply length_map_split|].
  split; [apply map_join_split|].
  intros i column Hi.
  exists (JsString.split column "DELIMITER_TOKEN").
  split; [|split; [reflexivity | apply join_split]].
  exact (map_nth_error
           (fun column => JsString.split column "DELIMITER_TOKEN") _ _ Hi).
Qed.

(** The scenario of the spec: [parsing] with progress 50, then [header]. *)
Example scenario :
  reduce initialState
         [Parsing {| ParsingPayload.progress := 50%float |};
          Header ["col1"; "col2"]] =
    Normal {| progress := 50%float;
              chunk := [];
              header := ["col1"; "col2"];
              names := [];
              result := "" |}.
Proof. reflexivity. Qed.

(** ** The range of [progress] *)

(** C7 as stated fails.  The reducer stores the progress a [parsing]
    message carries whatever it is: from the initial state, the one message [parsing] with progress 150
    leads to a state whose [progress] is above 100. *)
Lemma progress_above_100_reachable :
  Forall (fun action => is_reducer_type (type action) = true)
         [Parsing {| ParsingPayload.progress := 150%float |}] /\
  exists state',
    reduce initialState [Parsing {| ParsingPayload.progress := 150%float |}]
      = Normal state' /\
    progress state' = 150%float /\
    percentage (progress state') = false.
Proof.
  split.
  - constructor; [reflexivity | constructor].
  - eexists. split; [reflexivity|]. split; reflexivity.
Qed.

(** C7, amended.  In every state reached from the initial state by the
    reducer over messages of its five tags, [progress] lies between 0 and
    100 inclusive, provided every [parsing] message among them carries a
    progress between 0 and 100 inclusive. *)
Theorem progress_percentage (actions : list WorkerRecMessage) :
  Forall (fun action => is_reducer_type (type action) = true) actions ->
  (forall payload, In (Parsing payload) actions ->
     percentage (ParsingPayload.progress payload) = true) ->
  exists state',
    reduce initialState actions = Normal state' /\
    percentage (progress state') = true.
Proof.
  intros Hty Hp. now apply reduce_percentage.
Qed.

(** C7, amended, at the scenario of the spec: [parsing] with progress 50,
    then [header] with ["col1"], ["col2"]. *)
Lemma progress_percentage_scenario :
  Forall (fun action => is_reducer_type (type action) = true)
         [Parsing {| ParsingPayload.progress := 50%float |};
          Header ["col1"; "col2"]] /\
  (forall payload,
     In (Parsing payload)
        [Parsing {| ParsingPayload.progress := 50%float |};
         Header ["col1"; "col2"]] ->
     percentage (ParsingPayload.progress payload) = true) /\
  exists state',
    reduce initialState
           [Parsing {| ParsingPayload.progress := 50%float |};
            Header ["col1"; "col2"]] = Normal state' /\
    percentage (progress state') = true.
Proof.
  assert (Hty : Forall (fun action => is_reducer_type (type action) = true)
                  [Parsing {| ParsingPayload.progress := 50%float |};
                   Header ["col1"; "col2"]])
    by (repeat constructor).
  assert (Hp : forall payload,
             In (Parsing payload)
                [Parsing {| ParsingPayload.progress := 50%float |};
                 Header ["col1"; "col2"]] ->
             percentage (ParsingPayload.progress payload) = true).
  { intros payload [H|[H|[]]]; [|discriminate].
    injection H as <-. reflexivity. }
  split; [exact Hty|]. split; [exact Hp|].
  exact (progress_percentage _ Hty Hp).
Defined.

(** ** Integers as binary64 numbers *)

Section Binary64.
Import SpecFloat.
Local Open Scope Z_scope.

Local Abbreviation prec := FloatOps.prec.
Local Abbreviation emax := FloatOps.emax.

Lemma iter_pos_iter {A : Type} (f : A -> A) (k : positive) (x : A) :
  iter_pos f k x = Pos.iter f x k.
Proof.
  revert x; induction k as [k IH|k IH|]; intros x; simpl.
  - now rewrite !IH, !Pos.iter_swap.
  - now rewrite !IH.
  - reflexivity.
Qed.

Lemma digits2_iter_xO (m k : positive) :
  digits2_pos (Pos.iter xO m k) = (digits2_pos m + k)%positive.
Proof.
  induction k as [|k IH] using Pos.peano_ind.
  - simpl. now rewrite Pos.add_1_r.
  - rewrite Pos.iter_succ. simpl. rewrite IH. lia.
Qed.

Lemma Zpos_iter_xO (m k : positive) :
  Zpos (Pos.iter xO m k) = Zpos m * 2 ^ Zpos k.
Proof.
  induction k as [|k IH] using Pos.peano_ind.
  - simpl. lia.
  - rewrite Pos.iter_succ, Pos2Z.inj_xO, IH, Pos2Z.inj_succ, Z.pow_succ_r by lia.
    lia.
Qed.

Lemma shr_iter_xO (m k : positive) :
  Pos.iter shr_1 (Build_shr_record (Zpos (Pos.iter xO m k)) false false) k =
  Build_shr_record (Zpos m) false false.
Proof.
  revert m. induction k as [|k IH] using Pos.peano_ind; intros m.
  - reflexivity.
  - rewrite Pos.iter_succ.
    replace (Pos.iter xO m (Pos.succ k)) with (Pos.iter xO (xO m) k)
      by (now rewrite Pos.iter_swap, Pos.iter_succ).
    now rewrite IH.
Qed.

Lemma shr_fexp_canonical (m : positive) (e : Z) :
  canonical_mantissa prec emax m e = true ->
  shr_fexp prec emax (Zpos m) e loc_Exact =
    (Build_shr_record (Zpos m) false false, e).
Proof.
  unfold canonical_mantissa. intros Hc. apply Z.eqb_eq in Hc.
  unfold shr_fexp. cbn [Zdigits2 shr_record_of_loc].
  now rewrite Hc, Z.sub_diag.
Qed.

Lemma round_aux_canonical (sx : bool) (m : positive) (e : Z) :
  canonical_mantissa prec emax m e = true ->
  e <= emax - prec ->
  binary_round_aux prec emax sx (Zpos m) e loc_Exact = S754_finite sx m e.
Proof.
  intros Hc He. unfold binary_round_aux.
  rewrite (shr_fexp_canonical m e Hc).
  cbn [shr_m loc_of_shr_record round_nearest_even].
  rewrite (shr_fexp_canonical m e Hc). cbn [shr_m].
  apply Z.leb_le in He. now rewrite He.
Qed.

Lemma round_aux_shifted (sx : bool) (m k : positive) (e : Z) :
  canonical_mantissa prec emax m e = true ->
  e <= emax - prec ->
  binary_round_aux prec emax sx (Zpos (Pos.iter xO m k)) (e - Zpos k) loc_Exact
    = S754_finite sx m e.
Proof.
  intros Hc He.
  assert (Hs : shr_fexp prec emax (Zpos (Pos.iter xO m k)) (e - Zpos k)
                 loc_Exact = (Build_shr_record (Zpos m) false false, e)).
  { unfold canonical_mantissa in Hc. apply Z.eqb_eq in Hc.
    unfold shr_fexp. cbn [Zdigits2 shr_record_of_loc].
    rewrite digits2_iter_xO.
    replace (Zpos (digits2_pos m + k) + (e - Zpos k))
      with (Zpos (digits2_pos m) + e) by lia.
    rewrite Hc.
    replace (e - (e - Zpos k)) with (Zpos k) by lia.
    cbn [shr]. rewrite iter_pos_iter, shr_iter_xO.
    f_equal. lia. }
  unfold binary_round_aux. rewrite Hs.
  cbn [shr_m loc_of_shr_record round_nearest_even].
  rewrite (shr_fexp_canonical m e Hc). cbn [shr_m].
  apply Z.leb_le in He. now rewrite He.
Qed.

(** [binary_round] returns the canonical representation [(m, e)] of the
    value it is given, when the value has one. *)
Lemma round_exact (sx : bool) (M m : positive) (E e : Z) :
  canonical_mantissa prec emax m e = true ->
  e <= emax - prec ->
  Zpos M * 2 ^ (E - e) = Zpos m \/ (E <= e /\ Zpos M = Zpos m * 2 ^ (e - E)) ->
  binary_round prec emax sx M E = S754_finite sx m e.
Proof.
  intros Hc He Hv. unfold binary_round.
  destruct (Z.compare_spec E e) as [Heq|Hlt|Hgt].
  - subst E. rewrite Z.sub_diag in Hv.
    assert (M = m) by (destruct Hv as [Hv|[_ Hv]]; simpl in Hv; lia). subst M.
    pose proof Hc as Hc'. unfold canonical_mantissa in Hc'.
    apply Z.eqb_eq in Hc'. rewrite Hc'.
    unfold shl_align. rewrite Z.sub_diag.
    now apply round_aux_canonical.
  - destruct Hv as [Hv|[_ Hv]].
    { rewrite Z.pow_neg_r in Hv by lia. lia. }
    destruct (e - E) as [|k|k] eqn:Ek; try lia.
    rewrite <- Zpos_iter_xO in Hv. injection Hv as ->.
    replace E with (e - Zpos k) by lia.
    rewrite digits2_iter_xO.
    replace (Zpos (digits2_pos m + k) + (e - Zpos k))
      with (Zpos (digits2_pos m) + e) by lia.
    pose proof Hc as Hc'. unfold canonical_mantissa in Hc'.
    apply Z.eqb_eq in Hc'. rewrite Hc'.
    unfold shl_align. replace (e - (e - Zpos k)) with (Zpos k) by lia.
    now apply round_aux_shifted.
  - destruct Hv as [Hv|[Hle _]]; [|lia].
    destruct (E - e) as [|k|k] eqn:Ek; try lia.
    rewrite <- Zpos_iter_xO in Hv. injection Hv as <-.
    pose proof Hc as Hc'. unfold canonical_mantissa in Hc'.
    rewrite digits2_iter_xO in Hc'. apply Z.eqb_eq in Hc'.
    replace (Zpos (digits2_pos M) + E)
      with (Zpos (digits2_pos M + k) + e) by lia.
    rewrite Hc'. unfold shl_align.
    replace (e - E) with (Zneg k) by lia.
    now apply round_aux_canonical.
Qed.

Lemma shl_align_value (m : positive) (e ez : Z) :
  ez <= e -> Zpos (fst (shl_align m e ez)) = Zpos m * 2 ^ (e - ez).
Proof.
  intros H. unfold shl_align.
  destruct (ez - e) as [|k|k] eqn:Ek; try lia.
  - replace (e - ez) with 0 by lia. simpl. lia.
  - cbn [fst]. rewrite Zpos_iter_xO. f_equal. f_equal. lia.
Qed.

Lemma digits2_bound (p : positive) :
  Zpos p < 2 ^ 53 -> Zpos (digits2_pos p) <= 53.
Proof.
  intros H. change (digits2_pos p) with (Pos.size p).
  pose proof (Pos.size_le p) as Hs.
  apply Pos2Z.pos_le_pos in Hs. rewrite Pos2Z.inj_pow in Hs.
  change (Zpos 2) with 2 in Hs. change (Zpos p~0) with (2 * Zpos p) in Hs.
  assert (Hlt : 2 ^ Zpos (Pos.size p) < 2 ^ 54)
    by (change (2 ^ 54) with (2 * 2 ^ 53); lia).
  apply Z.pow_lt_mono_r_iff in Hlt; lia.
Qed.

(** The representation of a positive integer below 2^53. *)
Lemma integer_canonical (p : positive) :
  Zpos p < 2 ^ 53 ->
  exists m : positive,
    Zpos m = Zpos p * 2 ^ (53 - Zpos (digits2_pos p)) /\
    canonical_mantissa prec emax m (Zpos (digits2_pos p) - 53) = true.
Proof.
  intros H. apply digits2_bound in H.
  destruct (53 - Zpos (digits2_pos p)) as [|k|k] eqn:Ek; try lia.
  - exists p. split; [simpl; lia|].
    unfold canonical_mantissa, fexp. apply Z.eqb_eq.
    replace (Zpos (digits2_pos p)) with 53 by lia. reflexivity.
  - exists (Pos.iter xO p k). split; [apply Zpos_iter_xO|].
    unfold canonical_mantissa, fexp. apply Z.eqb_eq.
    rewrite digits2_iter_xO.
    replace (Zpos (digits2_pos p + k)) with 53 by lia.
    unfold FloatOps.prec, FloatOps.emax, emin. lia.
Qed.

Lemma normalize_integer (p : positive) :
  Zpos p < 2 ^ 53 ->
  exists m : positive,
    Zpos m = Zpos p * 2 ^ (53 - Zpos (digits2_pos p)) /\
    canonical_mantissa prec emax m (Zpos (digits2_pos p) - 53) = true /\
    binary_normalize prec emax (Zpos p) 0 false =
      S754_finite false m (Zpos (digits2_pos p) - 53).
Proof.
  intros H. destruct (integer_canonical p H) as (m & Hm & Hc).
  pose proof (digits2_bound p H) as Hd.
  exists m. split; [exact Hm|]. split; [exact Hc|].
  cbn [binary_normalize]. apply round_exact; [exact Hc| |].
  - unfold FloatOps.prec, FloatOps.emax. lia.
  - left. rewrite Hm. f_equal. f_equal. lia.
Qed.

Lemma SFadd_integer_one (p : positive) :
  Zpos p + 1 < 2 ^ 53 ->
  FloatAxioms.SF64add (binary_normalize prec emax (Zpos p) 0 false)
                      (S754_finite false 4503599627370496 (-52)) =
    binary_normalize prec emax (Zpos p + 1) 0 false.
Proof.
  intros H.
  destruct (normalize_integer p ltac:(lia)) as (m & Hm & Hc & ->).
  replace (Zpos p + 1) with (Zpos (p + 1)) in * by lia.
  destruct (normalize_integer (p + 1) H) as (m' & Hm' & Hc' & ->).
  pose proof (digits2_bound p ltac:(lia)) as Hd.
  pose proof (digits2_bound (p + 1) H) as Hd'.
  set (d := Zpos (digits2_pos p)) in *.
  set (d' := Zpos (digits2_pos (p + 1))) in *.
  assert (Hd1 : 1 <= d) by (unfold d; lia).
  assert (Hd1' : 1 <= d') by (unfold d'; lia).
  unfold FloatAxioms.SF64add, SFadd. cbn [cond_Zopp].
  replace (Z.min (d - 53) (-52)) with (-52) by lia.
  rewrite !shl_align_value by lia.
  rewrite Hm.
  assert (Hsum : Zpos p * 2 ^ (53 - d) * 2 ^ (d - 53 - -52) +
                 4503599627370496 * 2 ^ (-52 - -52) =
                 Zpos (p + 1) * 2 ^ 52).
  { rewrite <- Z.mul_assoc, <- Z.pow_add_r by lia.
    replace (53 - d + (d - 53 - -52)) with 52 by lia.
    replace (-52 - -52) with 0 by lia.
    change (2 ^ 0) with 1. change (2 ^ 52) with 4503599627370496. lia. }
  rewrite Hsum.
  destruct (Zpos (p + 1) * 2 ^ 52) as [|M|M] eqn:EM; try lia.
  cbn [binary_normalize]. apply round_exact; [exact Hc'| |].
  - unfold FloatOps.prec, FloatOps.emax. lia.
  - right. split; [lia|]. rewrite Hm'.
    rewrite <- Z.mul_assoc, <- Z.pow_add_r by lia.
    replace (53 - d' + (d' - 53 - -52)) with 52 by lia. lia.
Qed.

End Binary64.

Lemma number_of_Z_succ (n : Z) :
  (0 <= n < 2 ^ 53)%Z ->
  (number_of_Z n + 1)%float = number_of_Z (n + 1).
Proof.
  intros Hn. apply FloatAxioms.Prim2SF_inj.
  rewrite FloatAxioms.add_spec. unfold number_of_Z.
  rewrite !FloatAxioms.of_uint63_spec, !Uint63.of_Z_spec.
  assert (HwB : Uint63Axioms.wB = (2 ^ 63)%Z) by reflexivity.
  rewrite !Z.mod_small by (rewrite HwB; lia).
  change (FloatOps.Prim2SF 1%float)
    with (SpecFloat.S754_finite false 4503599627370496 (-52)).
  destruct n as [|p|p]; [reflexivity| |lia].
  destruct (Z.eq_dec (Zpos p) (2 ^ 53 - 1)) as [E|E].
  - rewrite E. reflexivity.
  - apply SFadd_integer_one. lia.
Qed.

Lemma number_of_Z_spec (n : Z) :
  (0 <= n < 2 ^ 53)%Z ->
  FloatOps.Prim2SF (number_of_Z n) =
    SpecFloat.binary_normalize FloatOps.prec FloatOps.emax n 0 false.
Proof.
  intros Hn. unfold number_of_Z.
  rewrite FloatAxioms.of_uint63_spec, Uint63.of_Z_spec.
  assert (HwB : Uint63Axioms.wB = (2 ^ 63)%Z) by reflexivity.
  now rewrite Z.mod_small by (rewrite HwB; lia).
Qed.

(** Different integers below 2^53 are different numbers. *)
Lemma number_of_Z_inj (a b : Z) :
  (0 <= a < 2 ^ 53)%Z -> (0 <= b < 2 ^ 53)%Z ->
  number_of_Z a = number_of_Z b -> a = b.
Proof.
  intros Ha Hb H. apply (f_equal FloatOps.Prim2SF) in H.
  rewrite !number_of_Z_spec in H by assumption.
  destruct a as [|p|p], b as [|q|q]; try lia; try reflexivity.
  - destruct (normalize_integer q ltac:(lia)) as (m & _ & _ & E).
    rewrite E in H. discriminate.
  - destruct (normalize_integer p ltac:(lia)) as (m & _ & _ & E).
    rewrite E in H. discriminate.
  - destruct (normalize_integer p ltac:(lia)) as (m & Hm & _ & E).
    destruct (normalize_integer q ltac:(lia)) as (m' & Hm' & _ & E').
    rewrite E, E' in H.
    assert (Hd := f_equal (fun x => match x with
                                    | SpecFloat.S754_finite _ _ e => e
                                    | _ => 0%Z
                                    end) H).
    assert (Hmm := f_equal (fun x => match x with
                                     | SpecFloat.S754_finite _ m _ => m
                                     | _ => xH
                                     end) H).
    cbv beta iota in Hd, Hmm.
    assert (Hdd : Zpos (SpecFloat.digits2_pos p) =
                  Zpos (SpecFloat.digits2_pos q)) by lia.
    rewrite Hmm, Hm', Hdd in Hm.
    apply Z.mul_reg_r in Hm; [congruence|].
    pose proof (digits2_bound q ltac:(lia)).
    apply Z.pow_nonzero; lia.
Qed.

(** Adding 1 to an integer below 2^53 is exact, so it gives another
    number. *)
Lemma number_of_Z_succ_neq (n : Z) :
  (0 <= n < 2 ^ 53)%Z -> (number_of_Z n + 1)%float <> number_of_Z n.
Proof.
  intros Hn H. rewrite number_of_Z_succ in H by assumption.
  destruct (Z.eq_dec n (2 ^ 53 - 1)) as [E|E].
  - subst n. apply (f_equal FloatOps.Prim2SF) in H.
    vm_compute in H. discriminate.
  - apply number_of_Z_inj in H; lia.
Qed.

(** Adding 1 [count] times to an integer, all below 2^53, counts. *)
Lemma number_of_Z_iter (count : nat) (n : Z) :
  (0 <= n)%Z -> (n + Z.of_nat count <= 2 ^ 53)%Z ->
  Nat.iter count (fun x => (x + 1)%float) (number_of_Z n) =
    number_of_Z (n + Z.of_nat count).
Proof.
  induction count as [|count IH]; intros Hn Hc.
  - simpl. now rewrite Z.add_0_r.
  - rewrite Nat.iter_succ, IH by lia.
    rewrite number_of_Z_succ by lia. f_equal. lia.
Qed.

(** At 2^53 the addition of 1 is absorbed. *)
Example add_1_absorbed :
  (number_of_Z (2 ^ 53) + 1)%float = number_of_Z (2 ^ 53).
Proof. reflexivity. Qed.

(** ** The handler [onmessage] *)

(** The chain of clauses as one case analysis on the message. *)
Lemma onmessage_cases (m : Metadata) (data : WorkerRecMessage) :
  onmessage m data =
    match data with
    | AddFilter payload =>
        setMetadata {| headerChecked := headerChecked m;
                       headerCheckBoxDisabled := headerCheckBoxDisabled m;
                       selectedId := (selectedId m + 1)%float |} ;;
        dispatch (Names (AddFilterPayload.names payload))
    | Other _ _ => console_log "Unexpected action"
    | _ => dispatch data
    end.
Proof. destruct data; reflexivity. Qed.

(** C5.  On a message whose tag is none of the six, the handler writes
    ["Unexpected action"] to the console and returns; the metadata, the
    reducer state and the data status are what they were. *)
Theorem onmessage_logs_other_types
    (m : Metadata) (data : WorkerRecMessage) (app : AppState) :
  is_handler_type (type data) = false ->
  onmessage m data app =
    Normal (tt, {| dataStatus := dataStatus app;
                   metadata := metadata app;
                   state := state app;
                   console := console app ++ ["Unexpected action"] |}).
Proof.
  intros H. rewrite onmessage_cases.
  destruct data; try discriminate H. reflexivity.
Qed.

(** C5 at a [reset] message and the first render. *)
Lemma onmessage_logs_reset :
  is_handler_type (type reset_message) = false /\
  onmessage initialMetadata reset_message initialApp =
    Normal (tt, {| dataStatus := dataStatus initialApp;
                   metadata := metadata initialApp;
                   state := state initialApp;
                   console := console initialApp ++ ["Unexpected action"] |}).
Proof.
  split; [reflexivity|].
  apply (onmessage_logs_other_types initialMetadata reset_message initialApp).
  reflexivity.
Defined.

(** The [addFilter] clause, for every metadata: the new [selectedId] is
    the sum of binary64. *)
Lemma onmessage_addFilter
    (m : Metadata) (ns : list string) (app : AppState) :
  onmessage m (AddFilter {| AddFilterPayload.names := ns |}) app =
    Normal (tt, {| dataStatus := dataStatus app;
                   metadata :=
                     {| headerChecked := headerChecked m;
                        headerCheckBoxDisabled := headerCheckBoxDisabled m;
                        selectedId := (selectedId m + 1)%float |};
                   state :=
                     {| progress := progress (state app);
                        chunk := chunk (state app);
                        header := header (state app);
                        names := ns;
                        result := result (state app) |};
                   console := console app |}).
Proof. rewrite onmessage_cases. reflexivity. Qed.

(** C6 as stated fails.  [selectedId] is a number and the clause adds 1
    to it in binary64: at 2^53 the sum is 2^53 again, and the handler
    leaves [selectedId] as it was. *)
Lemma selectedId_not_incremented_at_2_53 :
  exists app',
    onmessage {| headerChecked := true;
                 headerCheckBoxDisabled := false;
                 selectedId := 9007199254740992%float |}
              (AddFilter {| AddFilterPayload.names := ["a"] |}) initialApp
      = Normal (tt, app') /\
    selectedId (metadata app') = 9007199254740992%float /\
    names (state app') = ["a"].
Proof.
  eexists. split; [apply onmessage_addFilter|]. split; reflexivity.
Qed.

(** C6, amended.  For every metadata [m] whose [selectedId] is an integer
    [n] from 0 to 2^53 - 1, on an [addFilter] message with payload
    [{ names: ns }] the handler installed with [m] sets the metadata to
    [m] with [selectedId] exactly one higher, [n + 1], and dispatches [ns]
    as a [names] message: the reducer state becomes what the reducer
    returns for that message, whose [names] is [ns].  For the payload
    [{ names: ["a"] }] at the first render, [selectedId] becomes 1 and
    [names] becomes ["a"]. *)
Theorem addFilter_increments_and_dispatches_names
    (m : Metadata) (ns : list string) (app : AppState) (n : Z) :
  (0 <= n < 2 ^ 53)%Z ->
  selectedId m = number_of_Z n ->
  onmessage m (AddFilter {| AddFilterPayload.names := ns |}) app =
    Normal (tt, {| dataStatus := dataStatus app;
                   metadata :=
                     {| headerChecked := headerChecked m;
                        headerCheckBoxDisabled := headerCheckBoxDisabled m;
                        selectedId := number_of_Z (n + 1) |};
                   state :=
                     {| progress := progress (state app);
                        chunk := chunk (state app);
                        header := header (state app);
                        names := ns;
                        result := result (state app) |};
                   console := console app |}) /\
  onmessage m (AddFilter {| AddFilterPayload.names := ns |}) =
    (setMetadata {| headerChecked := headerChecked m;
                    headerCheckBoxDisabled := headerCheckBoxDisabled m;
                    selectedId := number_of_Z (n + 1) |} ;;
     onmessage m (Names ns)) /\
  reducer (state app) (Names ns) =
    Normal {| progress := progress (state app);
              chunk := chunk (state app);
              header := header (state app);
              names := ns;
              result := result (state app) |} /\
  exists app1,
    receive initialApp (AddFilter {| AddFilterPayload.names := ["a"] |})
      = Normal app1 /\
    selectedId (metadata app1) = 1%float /\
    names (state app1) = ["a"].
Proof.
  intros Hn Hm.
  assert (Hs : (selectedId m + 1)%float = number_of_Z (n + 1))
    by (rewrite Hm; now apply number_of_Z_succ).
  split; [|split; [|split]].
  - rewrite onmessage_addFilter. now rewrite Hs.
  - rewrite !onmessage_cases. cbn [AddFilterPayload.names]. now rewrite Hs.
  - unfold reducer. rewrite reducer_on_cases. reflexivity.
  - eexists. split; [reflexivity|]. split; reflexivity.
Qed.

(** C6, amended, at the first render: [selectedId] is 0. *)
Lemma addFilter_increments_at_first_render :
  (0 <= 0 < 2 ^ 53)%Z /\
  selectedId initialMetadata = number_of_Z 0 /\
  onmessage initialMetadata
            (AddFilter {| AddFilterPayload.names := ["a"] |}) initialApp =
    Normal (tt, {| dataStatus := dataStatus initialApp;
                   metadata :=
                     {| headerChecked := headerChecked initialMetadata;
                        headerCheckBoxDisabled :=
                          headerCheckBoxDisabled initialMetadata;
                        selectedId := number_of_Z (0 + 1) |};
                   state :=
                     {| progress := progress (state initialApp);
                        chunk := chunk (state initialApp);
                        header := header (state initialApp);
                        names := ["a"];
                        result := result (state initialApp) |};
                   console := console initialApp |}).
Proof.
  assert (Hn : (0 <= 0 < 2 ^ 53)%Z) by (split; [reflexivity | reflexivity]).
  split; [exact Hn|]. split; [reflexivity|].
  exact (proj1 (addFilter_increments_and_dispatches_names
                  initialMetadata ["a"] initialApp 0 Hn eq_refl)).
Defined.

(** C10.  Handling an [addFilter] message leaves [headerChecked] and
    [headerCheckBoxDisabled] as they are in the metadata [m] of the
    handler: the new metadata is [m] but for [selectedId], which is the
    sum of [m]'s and 1 in binary64.  No field other than [selectedId]
    differs, and [selectedId] does whenever it is an integer from 0 to
    2^53 - 1. *)
Theorem addFilter_keeps_header_flags
    (m : Metadata) (payload : AddFilterPayload.t) (app : AppState) :
  exists app',
    onmessage m (AddFilter payload) app = Normal (tt, app') /\
    headerChecked (metadata app') = headerChecked m /\
    headerCheckBoxDisabled (metadata app') = headerCheckBoxDisabled m /\
    metadata app' =
      {| headerChecked := headerChecked m;
         headerCheckBoxDisabled := headerCheckBoxDisabled m;
         selectedId := (selectedId m + 1)%float |} /\
    (forall n : Z,
       (0 <= n < 2 ^ 53)%Z -> selectedId m = number_of_Z n ->
       selectedId (metadata app') <> selectedId m).
Proof.
  destruct payload as [ns].
  eexists. split; [apply onmessage_addFilter|].
  cbn [metadata headerChecked headerCheckBoxDisabled selectedId].
  repeat split.
  intros n Hn Hm. rewrite Hm. now apply number_of_Z_succ_neq.
Qed.

(** * Further properties *)

(** ** What [split] returns *)

Section SplitRows.
Import JsString.
Local Open Scope string_scope.

Lemma strip_prefix_self (R rest : string) :
  strip_prefix R (R ++ rest) = Some rest.
Proof.
  induction R as [|a R IH]; simpl; [reflexivity|].
  now rewrite Ascii.eqb_refl.
Qed.

Lemma strip_prefix_extend (R X Y rest : string) :
  strip_prefix R X = Some rest -> strip_prefix R (X ++ Y) = Some (rest ++ Y).
Proof.
  revert X; induction R as [|a R IH]; intros X H; simpl in *.
  - now inversion H.
  - destruct X as [|b X]; [discriminate|]. simpl.
    destruct (Ascii.eqb a b); [now apply IH | discriminate].
Qed.

Lemma occurs_empty (c : ascii) (r : string) : occurs (String c r) "" = false.
Proof. reflexivity. Qed.

(** The text before the first occurrence has no occurrence. *)
Lemma cut_before_free (R S T rest : string) :
  R <> "" -> cut R S = Some (T, rest) -> cut R T = None.
Proof.
  intros HR. revert T; induction S as [|b S IH]; intros T H; simpl in H.
  - destruct (strip_prefix R "") eqn:E; [|discriminate].
    inversion H; subst. destruct R; [congruence | reflexivity].
  - destruct (strip_prefix R (String b S)) eqn:E.
    + inversion H; subst. destruct R; [congruence | reflexivity].
    + destruct (cut R S) as [[T' rest']|] eqn:E'; [|discriminate].
      inversion H; subst. simpl.
      destruct (strip_prefix R (String b T')) as [z|] eqn:E2.
      * apply cut_append in E'. subst S.
        apply (strip_prefix_extend _ _ (R ++ rest)) in E2.
        simpl in E2. simpl in E. congruence.
      * now rewrite (IH _ eq_refl).
Qed.

Lemma split_cells_free (c : ascii) (r S : string) :
  Forall (fun cell => occurs (String c r) cell = false)
         (split S (String c r)).
Proof.
  remember (String.length S) as n eqn:Hn.
  revert S Hn. induction n as [n IH] using lt_wf_ind. intros S Hn.
  destruct (cut (String c r) S) as [[T rest]|] eqn:E.
  - rewrite (split_found _ _ _ _ _ E). constructor.
    + assert (HR : String c r <> "") by discriminate.
      unfold occurs. now rewrite (cut_before_free _ _ _ _ HR E).
    + apply (IH (String.length rest)); [|reflexivity].
      apply cut_length in E. simpl in E. lia.
  - rewrite (split_not_found _ _ _ E). constructor; [|constructor].
    unfold occurs. now rewrite E.
Qed.

Lemma split_row_of_cells (c : ascii) (r S : string) :
  row_of_cells (String c r) (split S (String c r)).
Proof.
  split; [apply split_loop_not_nil | apply split_cells_free].
Qed.

(** When the first code unit of the separator is not among the others, an
    occurrence cannot start in the text before a separator and end inside
    it. *)
Lemma strip_prefix_across (c : ascii) (r X Y : string) :
  code_unit_in c r = false ->
  strip_prefix r X = None ->
  strip_prefix r (X ++ String c Y) = None.
Proof.
  revert X; induction r as [|a r IH]; intros X Hc H; simpl in *.
  - discriminate.
  - apply orb_false_elim in Hc as [Hca Hc].
    destruct X as [|b X]; simpl.
    + rewrite Ascii.eqb_sym, Hca. reflexivity.
    + destruct (Ascii.eqb a b); [now apply IH | reflexivity].
Qed.

Lemma cut_here (R S rest : string) :
  strip_prefix R S = Some rest -> cut R S = Some ("", rest).
Proof. intros H. destruct S; simpl; now rewrite H. Qed.

Lemma cut_later (R : string) (b : ascii) (S : string) :
  strip_prefix R (String b S) = None ->
  cut R (String b S) =
    match cut R S with
    | Some (T, rest) => Some (String b T, rest)
    | None => None
    end.
Proof. intros H. simpl. simpl in H. now rewrite H. Qed.

Lemma cut_join_point (c : ascii) (r X rest : string) :
  code_unit_in c r = false ->
  cut (String c r) X = None ->
  cut (String c r) (X ++ String c r ++ rest) = Some (X, rest).
Proof.
  intros Hc. induction X as [|b X IH]; intros H.
  - apply cut_here. apply (strip_prefix_self (String c r)).
  - assert (Hhere : strip_prefix (String c r) (String b X) = None).
    { destruct (strip_prefix (String c r) (String b X)) eqn:E;
        [|reflexivity].
      apply cut_here in E. congruence. }
    rewrite (cut_later _ _ _ Hhere) in H.
    destruct (cut (String c r) X) as [[T' rest']|] eqn:E'; [discriminate|].
    change (String b X ++ String c r ++ rest)
      with (String b (X ++ String c r ++ rest)).
    rewrite cut_later.
    + now rewrite IH.
    + simpl in Hhere |- *.
      destruct (Ascii.eqb c b); [|reflexivity].
      now apply (strip_prefix_across c r X (r ++ rest)).
Qed.

Lemma split_join (c : ascii) (r : string) (row : list string) :
  code_unit_in c r = false ->
  row_of_cells (String c r) row ->
  split (join (String c r) row) (String c r) = row.
Proof.
  intros Hc [Hne Hfree]. destruct row as [|x row]; [congruence|]. clear Hne.
  revert x Hfree. induction row as [|y row IH]; intros x Hfree.
  - inversion Hfree as [|? ? Hx _]; subst. unfold occurs in Hx.
    destruct (cut (String c r) x) eqn:E; [discriminate|].
    now apply split_not_found.
  - inversion Hfree as [|? ? Hx Hrest]; subst. unfold occurs in Hx.
    destruct (cut (String c r) x) eqn:E; [discriminate|].
    rewrite join_cons by discriminate.
    rewrite (split_found _ _ _ _ _ (cut_join_point c r x _ Hc E)).
    f_equal. now apply IH.
Qed.

End SplitRows.

(** A separator whose first code unit comes again inside it can be found
    across the end of a cell: the rows ["a"], [""] joined on ["aa"] split
    into [""], ["a"]. *)
Example split_join_overlapping :
  JsString.split (JsString.join "aa" ["a"; ""]) "aa" = [""; "a"].
Proof. reflexivity. Qed.

(** X8.  A string splits into the single cell holding the string itself
    exactly when the separator does not occur in it; the empty string is
    such a string, so its row is the one empty cell and not the empty row. *)
Theorem split_single_cell (c : ascii) (r S : string) :
  (JsString.split S (String c r) = [S] <->
   occurs (String c r) S = false) /\
  JsString.split "" (String c r) = [""].
Proof.
  split; [split|].
  - intros H. unfold occurs.
    destruct (JsString.cut (String c r) S) as [[T rest]|] eqn:E;
      [|reflexivity].
    rewrite (split_found _ _ _ _ _ E) in H.
    injection H as _ H. exfalso. revert H. apply split_loop_not_nil.
  - unfold occurs. intros H.
    destruct (JsString.cut (String c r) S) eqn:E; [discriminate|].
    now apply split_not_found.
  - now apply split_not_found.
Qed.

(** ** The rows of [chunk] *)

(** X6.  After a [chunk] message every row of [chunk] has at least one
    cell, and ["DELIMITER_TOKEN"] occurs in no cell. *)
Theorem chunk_rows_are_rows_of_cells
    (state : WorkerDataState) (payload : list string) :
  exists state',
    reducer state (Chunk payload) = Normal state' /\
    Forall (row_of_cells "DELIMITER_TOKEN") (chunk state').
Proof.
  eexists. split; [unfold reducer; rewrite reducer_on_cases; reflexivity|].
  cbn [chunk]. apply Forall_map, Forall_forall.
  intros column _. apply split_row_of_cells.
Qed.

(** X7.  Rows that each have a cell and whose cells are free of
    ["DELIMITER_TOKEN"], sent as the strings they join to, are the [chunk]
    the reducer stores: its split undoes the join. *)
Theorem chunk_of_joined_rows
    (state : WorkerDataState) (rows : list (list string)) :
  Forall (row_of_cells "DELIMITER_TOKEN") rows ->
  reducer state (Chunk (map (JsString.join "DELIMITER_TOKEN") rows)) =
    Normal {| progress := progress state;
              chunk := rows;
              header := header state;
              names := names state;
              result := result state |}.
Proof.
  intros Hrows. unfold reducer. rewrite reducer_on_cases.
  do 2 f_equal. rewrite map_map.
  induction Hrows as [|row rows Hrow _ IH]; [reflexivity|].
  cbn [map]. rewrite IH. f_equal.
  now apply (split_join "D" "ELIMITER_TOKEN").
Qed.

(** X7 at two rows, one of them with an empty cell. *)
Lemma chunk_of_joined_rows_example :
  Forall (row_of_cells "DELIMITER_TOKEN") [["a"; "b"]; [""; "d"]] /\
  reducer initialState
          (Chunk (map (JsString.join "DELIMITER_TOKEN")
                      [["a"; "b"]; [""; "d"]])) =
    Normal {| progress := progress initialState;
              chunk := [["a"; "b"]; [""; "d"]];
              header := header initialState;
              names := names initialState;
              result := result initialState |}.
Proof.
  assert (H : Forall (row_of_cells "DELIMITER_TOKEN")
                     [["a"; "b"]; [""; "d"]]).
  { repeat constructor; discriminate. }
  split; [exact H|].
  exact (chunk_of_joined_rows initialState _ H).
Defined.

(** ** How the reducer composes *)

Lemma other_not_reducer_type (t : OtherType) :
  is_reducer_type (type_name t) = false.
Proof.
  destruct t as [name Hname]. simpl.
  unfold is_handler_type, handler_types in Hname.
  rewrite existsb_app in Hname. now apply orb_false_elim in Hname as [? _].
Qed.

Lemma other_type_not_literal (t : OtherType) (tag : string) :
  In tag handler_types -> type_name t <> tag.
Proof.
  intros Hin E. apply String.eqb_eq in E.
  rewrite (other_type_not_matched t tag Hin) in E. discriminate.
Qed.

Lemma reducer_outside (state : WorkerDataState) (action : WorkerRecMessage) :
  is_reducer_type (type action) = false ->
  reducer state action = Throws (NoPatternMatches action).
Proof.
  intros H. unfold reducer. rewrite reducer_on_cases.
  destruct action; try reflexivity; discriminate H.
Qed.

(** Closes a goal one of whose hypotheses says that the tag of an [Other]
    message is one of the six, or that a tag outside the five is one of
    them. *)
Ltac absurd_type :=
  match goal with
  | H : is_reducer_type (type (Other ?t _)) = true |- _ =>
      simpl in H; rewrite other_not_reducer_type in H; discriminate H
  | H : is_reducer_type (type (AddFilter _)) = true |- _ => discriminate H
  | H : type (Other ?t _) = _ |- _ =>
      exfalso; revert H; simpl; apply other_type_not_literal;
      simpl; tauto
  | H : _ = type (Other ?t _) |- _ =>
      exfalso; symmetry in H; revert H; simpl;
      apply other_type_not_literal; simpl; tauto
  end.

(** X1.  The reducer returns a state on the messages of its five tags and
    on no other message. *)
Theorem reducer_returns_iff
    (state : WorkerDataState) (action : WorkerRecMessage) :
  (exists state', reducer state action = Normal state') <->
  is_reducer_type (type action) = true.
Proof.
  split.
  - intros [state' H].
    destruct (is_reducer_type (type action)) eqn:E; [reflexivity|].
    rewrite (reducer_outside _ _ E) in H. discriminate.
  - apply reducer_returns.
Qed.

(** X2.  Two messages of the reducer with different tags write different
    fields: applying them in either order gives the same state. *)
Theorem different_types_commute
    (state : WorkerDataState) (a b : WorkerRecMessage) :
  is_reducer_type (type a) = true ->
  is_reducer_type (type b) = true ->
  type a <> type b ->
  reduce state [a; b] = reduce state [b; a] /\
  exists state', reduce state [a; b] = Normal state'.
Proof.
  intros Ha Hb Hab.
  destruct a, b; try absurd_type; try (now elim Hab);
    (split; [reflexivity | eexists; reflexivity]).
Qed.

(** X2 at a [parsing] and a [header] message. *)
Lemma different_types_commute_example :
  is_reducer_type
    (type (Parsing {| ParsingPayload.progress := 50%float |})) = true /\
  is_reducer_type (type (Header ["col1"; "col2"])) = true /\
  type (Parsing {| ParsingPayload.progress := 50%float |}) <>
    type (Header ["col1"; "col2"]) /\
  reduce initialState
         [Parsing {| ParsingPayload.progress := 50%float |};
          Header ["col1"; "col2"]] =
    reduce initialState
           [Header ["col1"; "col2"];
            Parsing {| ParsingPayload.progress := 50%float |}] /\
  exists state',
    reduce initialState
           [Parsing {| ParsingPayload.progress := 50%float |};
            Header ["col1"; "col2"]] = Normal state'.
Proof.
  assert (Hab : type (Parsing {| ParsingPayload.progress := 50%float |}) <>
                type (Header ["col1"; "col2"])) by discriminate.
  split; [reflexivity|]. split; [reflexivity|]. split; [exact Hab|].
  exact (different_types_commute initialState
           (Parsing {| ParsingPayload.progress := 50%float |})
           (Header ["col1"; "col2"]) eq_refl eq_refl Hab).
Defined.

(** X3.  Of two messages of the reducer with the same tag applied one
    after the other, the first leaves no trace: the state is the one the
    second alone gives. *)
Theorem same_type_overwrites
    (state : WorkerDataState) (a b : WorkerRecMessage) :
  is_reducer_type (type a) = true ->
  type a = type b ->
  reduce state [a; b] = reduce state [b] /\
  exists state', reduce state [b] = Normal state'.
Proof.
  intros Ha Hab.
  destruct a, b; try absurd_type; try discriminate Hab;
    (split; [reflexivity | eexists; reflexivity]).
Qed.

(** X3 at two [chunk] messages. *)
Lemma same_type_overwrites_example :
  is_reducer_type (type (Chunk ["aDELIMITER_TOKENb"])) = true /\
  type (Chunk ["aDELIMITER_TOKENb"]) = type (Chunk ["c"; "d"]) /\
  reduce initialState [Chunk ["aDELIMITER_TOKENb"]; Chunk ["c"; "d"]] =
    reduce initialState [Chunk ["c"; "d"]] /\
  exists state', reduce initialState [Chunk ["c"; "d"]] = Normal state'.
Proof.
  split; [reflexivity|]. split; [reflexivity|].
  exact (same_type_overwrites initialState
           (Chunk ["aDELIMITER_TOKENb"]) (Chunk ["c"; "d"])
           eq_refl eq_refl).
Defined.

Lemma state_eta (state : WorkerDataState) :
  {| progress := progress state;
     chunk := chunk state;
     header := header state;
     names := names state;
     result := result state |} = state.
Proof. now destruct state. Qed.

(** X4.  The reducer keeps no history: after any run over messages of its
    five tags, each field holds what the last message of its tag carried
    (for [chunk], split on the token), and what it held before the run
    when no message of that tag came. *)
Theorem reduce_keeps_latest
    (actions : list WorkerRecMessage) (state : WorkerDataState) :
  Forall (fun action => is_reducer_type (type action) = true) actions ->
  reduce state actions =
    Normal
      {| progress :=
           latest (fun action =>
                     option_map ParsingPayload.progress
                                (parsing_payload action))
                  actions (progress state);
         chunk :=
           latest (fun action =>
                     option_map
                       (map (fun column =>
                               JsString.split column "DELIMITER_TOKEN"))
                       (chunk_payload action))
                  actions (chunk state);
         header := latest header_payload actions (header state);
         names := latest names_payload actions (names state);
         result := latest sumCol_payload actions (result state) |}.
Proof.
  intros Hty. revert state.
  induction Hty as [|a actions Ha _ IH]; intros state.
  - cbn [reduce latest]. now rewrite state_eta.
  - cbn [reduce]. unfold reducer at 1. rewrite reducer_on_cases.
    destruct a; try absurd_type; rewrite IH; reflexivity.
Qed.

(** X4 at the scenario of the spec followed by a second [parsing]. *)
Lemma reduce_keeps_latest_example :
  Forall (fun action => is_reducer_type (type action) = true)
         [Parsing {| ParsingPayload.progress := 50%float |};
          Header ["col1"; "col2"];
          Parsing {| ParsingPayload.progress := 75%float |}] /\
  reduce initialState
         [Parsing {| ParsingPayload.progress := 50%float |};
          Header ["col1"; "col2"];
          Parsing {| ParsingPayload.progress := 75%float |}] =
    Normal {| progress := 75%float;
              chunk := [];
              header := ["col1"; "col2"];
              names := [];
              result := "" |}.
Proof.
  assert (Hty : Forall (fun action => is_reducer_type (type action) = true)
                  [Parsing {| ParsingPayload.progress := 50%float |};
                   Header ["col1"; "col2"];
                   Parsing {| ParsingPayload.progress := 75%float |}])
    by (repeat constructor).
  split; [exact Hty|].
  exact (reduce_keeps_latest _ initialState Hty).
Defined.

(** X5.  A run throws at the first message that is not of the five tags:
    the exception carries that message, whatever comes after it. *)
Theorem reduce_throws_at_first
    (before : list WorkerRecMessage) (action : WorkerRecMessage)
    (after : list WorkerRecMessage) (state : WorkerDataState) :
  Forall (fun action => is_reducer_type (type action) = true) before ->
  is_reducer_type (type action) = false ->
  reduce state (before ++ action :: after) =
    Throws (NoPatternMatches action).
Proof.
  intros Hty Ha. revert state.
  induction Hty as [|b before Hb _ IH]; intros state.
  - cbn [app reduce]. now rewrite (reducer_outside _ _ Ha).
  - cbn [app reduce].
    destruct (reducer_returns state b Hb) as [state1 E1].
    rewrite E1. apply IH.
Qed.

(** X5 at an [addFilter] message between a [parsing] and a [header]. *)
Lemma reduce_throws_at_first_example :
  Forall (fun action => is_reducer_type (type action) = true)
         [Parsing {| ParsingPayload.progress := 50%float |}] /\
  is_reducer_type (type (AddFilter {| AddFilterPayload.names := ["a"] |}))
    = false /\
  reduce initialState
         ([Parsing {| ParsingPayload.progress := 50%float |}] ++
          AddFilter {| AddFilterPayload.names := ["a"] |} ::
          [Header ["col1"]]) =
    Throws (NoPatternMatches
              (AddFilter {| AddFilterPayload.names := ["a"] |})).
Proof.
  assert (Hty : Forall (fun action => is_reducer_type (type action) = true)
                  [Parsing {| ParsingPayload.progress := 50%float |}])
    by (repeat constructor).
  split; [exact Hty|]. split; [reflexivity|].
  exact (reduce_throws_at_first _
           (AddFilter {| AddFilterPayload.names := ["a"] |})
           [Header ["col1"]] initialState Hty eq_refl).
Defined.

(** ** The handler, message by message *)

(** X9.  The handler returns on every message: nothing it passes to
    [dispatch] makes the reducer throw.  It never changes the data status,
    changes the metadata only on [addFilter], writes to the console only
    on a tag outside the six, and then leaves the reducer state alone. *)
Theorem onmessage_returns
    (m : Metadata) (data : WorkerRecMessage) (app : AppState) :
  exists app',
    onmessage m data app = Normal (tt, app') /\
    dataStatus app' = dataStatus app /\
    (is_addFilter data = false -> metadata app' = metadata app) /\
    (is_other data = false -> console app' = console app) /\
    (is_other data = true -> state app' = state app).
Proof.
  rewrite onmessage_cases.
  destruct data; eexists; (split; [reflexivity|]);
    repeat split; intros; try reflexivity; discriminate.
Qed.

(** X10.  On a message of one of the reducer's five tags the handler does
    what the reducer does: the reducer state becomes the state the reducer
    returns for that message, and nothing else changes. *)
Theorem onmessage_forwards
    (m : Metadata) (data : WorkerRecMessage) (app : AppState) :
  is_reducer_type (type data) = true ->
  exists state',
    reducer (state app) data = Normal state' /\
    onmessage m data app =
      Normal (tt, {| dataStatus := dataStatus app;
                     metadata := metadata app;
                     state := state';
                     console := console app |}).
Proof.
  intros H. rewrite onmessage_cases.
  destruct data; try absurd_type; eexists; split; reflexivity.
Qed.

(** X10 at a [chunk] message and the first render. *)
Lemma onmessage_forwards_example :
  is_reducer_type (type (Chunk ["aDELIMITER_TOKENb"])) = true /\
  exists state',
    reducer (state initialApp) (Chunk ["aDELIMITER_TOKENb"])
      = Normal state' /\
    onmessage initialMetadata (Chunk ["aDELIMITER_TOKENb"]) initialApp =
      Normal (tt, {| dataStatus := dataStatus initialApp;
                     metadata := metadata initialApp;
                     state := state';
                     console := console initialApp |}).
Proof.
  split; [reflexivity|].
  exact (onmessage_forwards initialMetadata (Chunk ["aDELIMITER_TOKENb"])
           initialApp eq_refl).
Defined.

(** X11.  The [addFilter] clause computes the new metadata from the
    metadata of the render that installed the handler, not from the
    current one.  So a metadata set after that render and before the
    message is lost, and two [addFilter] messages handled by the same
    handler leave the metadata that one alone leaves: 1 is added to the
    [selectedId] of the render once, not twice; the [names] are those of
    the second. *)
Theorem addFilter_reads_the_render
    (m input : Metadata) (p1 p2 : AddFilterPayload.t) (app : AppState) :
  (exists app',
     (setMetadata input ;; onmessage m (AddFilter p1)) app
       = Normal (tt, app') /\
     metadata app' =
       {| headerChecked := headerChecked m;
          headerCheckBoxDisabled := headerCheckBoxDisabled m;
          selectedId := (selectedId m + 1)%float |}) /\
  (exists app1 app2,
     onmessage m (AddFilter p1) app = Normal (tt, app1) /\
     (onmessage m (AddFilter p1) ;; onmessage m (AddFilter p2)) app
       = Normal (tt, app2) /\
     metadata app2 = metadata app1 /\
     metadata app2 =
       {| headerChecked := headerChecked m;
          headerCheckBoxDisabled := headerCheckBoxDisabled m;
          selectedId := (selectedId m + 1)%float |} /\
     names (state app2) = AddFilterPayload.names p2).
Proof.
  rewrite !onmessage_cases. split.
  - eexists. split; reflexivity.
  - do 2 eexists. split; [reflexivity|]. split; [reflexivity|].
    repeat split.
Qed.

(** ** The handler over the messages of a session *)

(** One message, at the handler of the last render. *)
Lemma receive_step (app : AppState) (data : WorkerRecMessage) :
  exists app',
    receive app data = Normal app' /\
    dataStatus app' = dataStatus app /\
    headerChecked (metadata app') = headerChecked (metadata app) /\
    headerCheckBoxDisabled (metadata app') =
      headerCheckBoxDisabled (metadata app) /\
    selectedId (metadata app') =
      (if is_addFilter data
       then (selectedId (metadata app) + 1)%float
       else selectedId (metadata app)) /\
    console app' =
      console app ++ (if is_other data then ["Unexpected action"] else []) /\
    reduce (state app) (dispatched data) = Normal (state app').
Proof.
  unfold receive. rewrite onmessage_cases.
  destruct data; eexists; (split; [reflexivity|]);
    cbn [dataStatus metadata state console headerChecked
         headerCheckBoxDisabled selectedId is_addFilter is_other dispatched];
    rewrite ?app_nil_r; repeat split.
Qed.

(** X12.  Over any sequence of messages, each handled after the render
    that follows the one before, the handler never throws; [selectedId]
    has had 1 added in binary64 once for each [addFilter] message, which
    from an integer [n] at least 0 makes it [n] plus the number of those
    messages as long as that is at most 2^53; the console gains one line
    ["Unexpected action"] for each message with a tag outside the six; the
    data status and the two header flags stay as they were. *)
Theorem receive_all_counts
    (messages : list WorkerRecMessage) (app : AppState) :
  exists app',
    receive_all app messages = Normal app' /\
    dataStatus app' = dataStatus app /\
    headerChecked (metadata app') = headerChecked (metadata app) /\
    headerCheckBoxDisabled (metadata app') =
      headerCheckBoxDisabled (metadata app) /\
    selectedId (metadata app') =
      Nat.iter (length (filter is_addFilter messages))
               (fun x => (x + 1)%float) (selectedId (metadata app)) /\
    (forall n : Z,
       (0 <= n)%Z ->
       (n + Z.of_nat (length (filter is_addFilter messages)) <= 2 ^ 53)%Z ->
       selectedId (metadata app) = number_of_Z n ->
       selectedId (metadata app') =
         number_of_Z
           (n + Z.of_nat (length (filter is_addFilter messages)))) /\
    console app' =
      console app ++
      repeat "Unexpected action" (length (filter is_other messages)).
Proof.
  assert (G : exists app',
    receive_all app messages = Normal app' /\
    dataStatus app' = dataStatus app /\
    headerChecked (metadata app') = headerChecked (metadata app) /\
    headerCheckBoxDisabled (metadata app') =
      headerCheckBoxDisabled (metadata app) /\
    selectedId (metadata app') =
      Nat.iter (length (filter is_addFilter messages))
               (fun x => (x + 1)%float) (selectedId (metadata app)) /\
    console app' =
      console app ++
      repeat "Unexpected action" (length (filter is_other messages))).
  { revert app. induction messages as [|data messages IH]; intros app.
    - exists app. cbn. rewrite app_nil_r. repeat split.
    - destruct (receive_step app data)
        as (app1 & E1 & Hd1 & Hc1 & Hb1 & Hs1 & Hl1 & _).
      destruct (IH app1) as (app' & E & Hd & Hc & Hb & Hs & Hl).
      exists app'. cbn [receive_all]. rewrite E1.
      split; [exact E|]. split; [congruence|]. split; [congruence|].
      split; [congruence|]. split.
      + rewrite Hs, Hs1. cbn [filter].
        destruct (is_addFilter data); [|reflexivity].
        cbn [length]. now rewrite Nat.iter_succ_r.
      + rewrite Hl, Hl1, <- app_assoc. f_equal. cbn [filter].
        destruct (is_other data); reflexivity. }
  destruct G as (app' & E & Hd & Hc & Hb & Hs & Hl).
  exists app'. repeat (split; [assumption|]).
  split; [|assumption].
  intros n Hn Hc' Hm. rewrite Hs, Hm. now apply number_of_Z_iter.
Qed.

(** X12 at the first render and two [addFilter] messages around a
    [header] message: [selectedId] becomes 2. *)
Example receive_all_counts_example :
  exists app',
    receive_all initialApp
      [AddFilter {| AddFilterPayload.names := ["a"] |};
       Header ["col1"];
       AddFilter {| AddFilterPayload.names := ["b"] |}] = Normal app' /\
    selectedId (metadata app') = number_of_Z 2 /\
    names (state app') = ["b"].
Proof. eexists. split; [reflexivity|]. split; reflexivity. Qed.

(** X13.  Over any sequence of messages, the reducer state [App] ends
    with is the reducer run over the messages in their order, with each
    [addFilter] message replaced by the [names] message of its names and
    the messages with a tag outside the six left out. *)
Theorem receive_all_state
    (messages : list WorkerRecMessage) (app : AppState) :
  exists app',
    receive_all app messages = Normal app' /\
    reduce (state app) (flat_map dispatched messages) = Normal (state app').
Proof.
  revert app. induction messages as [|data messages IH]; intros app.
  - exists app. split; reflexivity.
  - destruct (receive_step app data)
      as (app1 & E1 & _ & _ & _ & _ & _ & Hr1).
    destruct (IH app1) as (app' & E & Hr).
    exists app'. cbn [receive_all flat_map]. rewrite E1.
    split; [exact E|]. now rewrite reduce_app, Hr1.
Qed.
